(** * The libsass4 umbrella header of swift-sass

    A verification development for [Sources/clibsass4/libsass4.h], the
    header-aggregation shim that re-exports the public C API of LibSass 4.

    The header is embedded as what it is: a text of 27 lines.  The C
    translation phases that matter for it (comment removal, recognition of
    preprocessing directives, inclusion of a header under include guards)
    are written out as executable functions, and every statement below is
    about the result of running them on the text of the header. *)

From Stdlib Require Import Ascii String.
From stdpp Require Import base decidable option list strings gmap.

Local Open Scope string_scope.
Local Open Scope list_scope.

(** ** The source text *)

Module Source.

(** [Sources/clibsass4/libsass4.h], line by line (the file does not end in a
    newline, so the 27th line is the last include directive). *)
Definition libsass4_h : list string :=
  [ "/* This is hairier than it should be because Swift PM does not let you"
  ; "   prepend include search paths and so an existing libsass installation"
  ; "   always wins over a private one."
  ; ""
  ; "   These headers have mutual includes in them.  The order here, then,"
  ; "   is vital to be such that the mutual includes always go backwards to"
  ; "   files that exist in libsass3:"
  ; "     sass.h"
  ; "     sass/base.h"
  ; "     sass/values.h"
  ; "     sass/version.h"
  ; ""
  ; "   Goes away entirely when there is a system libsass4 (or just 'libsass'"
  ; "   by then)"
  ; "*/"
  ; "#include <libsass4/include/sass/base.h>"
  ; "#include <libsass4/include/sass/enums.h>"
  ; "#include <libsass4/include/sass/fwdecl.h>"
  ; "#include <libsass4/include/sass/version.h>"
  ; "#include <libsass4/include/sass/error.h>"
  ; "#include <libsass4/include/sass/traces.h>"
  ; "#include <libsass4/include/sass/values.h>"
  ; "#include <libsass4/include/sass/import.h>"
  ; "#include <libsass4/include/sass/importer.h>"
  ; "#include <libsass4/include/sass/function.h>"
  ; "#include <libsass4/include/sass/compiler.h>"
  ; "#include <libsass4/include/sass/variable.h>" ].

End Source.

(** ** Lexing: comments and preprocessing directives *)

Module Lexer.

Definition dquote : ascii := ascii_of_nat 34.
Definition tab : ascii := ascii_of_nat 9.

Definition is_blank (c : ascii) : bool :=
  (Ascii.eqb c " " || Ascii.eqb c tab)%bool.

Definition is_ident_char (c : ascii) : bool :=
  let n := nat_of_ascii c in
  ((Nat.leb 97 n && Nat.leb n 122) || (Nat.leb 65 n && Nat.leb n 90)
   || (Nat.leb 48 n && Nat.leb n 57) || Nat.eqb n 95)%bool.

(** Where the lexer is: in code, inside a block comment (which may run over
    several lines), or inside a string or character literal opened by the
    given quote. *)
Inductive lex_mode := InCode | InComment | InLiteral (q : ascii).

(** Comment removal on one line (translation phase 3): a block comment is
    replaced by one space, a line comment runs to the end of the line, a
    block comment left open carries over to the next line, and no comment
    starts inside a literal.  Lines are taken as they stand in the file:
    backslash-newline splicing is not modelled. *)
Fixpoint strip_line (m : lex_mode) (s : string) : string * lex_mode :=
  match s with
  | EmptyString => (EmptyString, match m with InLiteral _ => InCode | _ => m end)
  | String c rest =>
      match m with
      | InComment =>
          match c, rest with
          | "*"%char, String "/"%char rest' =>
              let '(out, m') := strip_line InCode rest' in
              (String " "%char out, m')
          | _, _ => strip_line InComment rest
          end
      | InLiteral q =>
          match c, rest with
          | "\"%char, String c' rest' =>
              let '(out, m') := strip_line (InLiteral q) rest' in
              (String c (String c' out), m')
          | _, _ =>
              let '(out, m') :=
                strip_line (if Ascii.eqb c q then InCode else InLiteral q) rest in
              (String c out, m')
          end
      | InCode =>
          match c, rest with
          | "/"%char, String "*"%char rest' => strip_line InComment rest'
          | "/"%char, String "/"%char _ => (EmptyString, InCode)
          | _, _ =>
              let '(out, m') :=
                strip_line (if (Ascii.eqb c dquote || Ascii.eqb c "'")%bool
                            then InLiteral c else InCode) rest in
              (String c out, m')
          end
      end
  end.

Fixpoint strip_lines (m : lex_mode) (ls : list string) : list string * lex_mode :=
  match ls with
  | [] => ([], m)
  | l :: ls' =>
      let '(out, m1) := strip_line m l in
      let '(outs, m2) := strip_lines m1 ls' in
      (out :: outs, m2)
  end.

Fixpoint skip_blanks (s : string) : string :=
  match s with
  | String c rest => if is_blank c then skip_blanks rest else s
  | EmptyString => EmptyString
  end.

(** The longest prefix of identifier characters, and what follows it. *)
Fixpoint take_ident (s : string) : string * string :=
  match s with
  | String c rest =>
      if is_ident_char c
      then let '(id, tl) := take_ident rest in (String c id, tl)
      else (EmptyString, s)
  | EmptyString => (EmptyString, EmptyString)
  end.

(** The characters before the first [stop], if there is one, and what
    follows it. *)
Fixpoint take_until (stop : ascii) (s : string) : option (string * string) :=
  match s with
  | EmptyString => None
  | String c rest =>
      if Ascii.eqb c stop then Some (EmptyString, rest)
      else match take_until stop rest with
           | Some (hd, tl) => Some (String c hd, tl)
           | None => None
           end
  end.

(** The two forms of a header name: [<h>] and ["h"]. *)
Inductive include_form := Angle | Quoted.

Inductive line_class :=
  | Blank
  | Include (form : include_form) (path : string)
  | Directive (name rest : string)
  | Text (s : string).

Definition classify_include (arg : string) : line_class :=
  match arg with
  | String c rest =>
      if Ascii.eqb c "<" then
        match take_until ">" rest with
        | Some (p, tl) =>
            if String.eqb (skip_blanks tl) "" then Include Angle p
            else Directive "include" arg
        | None => Directive "include" arg
        end
      else if Ascii.eqb c dquote then
        match take_until dquote rest with
        | Some (p, tl) =>
            if String.eqb (skip_blanks tl) "" then Include Quoted p
            else Directive "include" arg
        | None => Directive "include" arg
        end
      else Directive "include" arg
  | EmptyString => Directive "include" arg
  end.

(** A line whose first non-blank character is [#] is a directive. *)
Definition classify (l : string) : line_class :=
  match skip_blanks l with
  | EmptyString => Blank
  | String c rest =>
      if Ascii.eqb c "#" then
        let '(name, arg) := take_ident (skip_blanks rest) in
        if String.eqb name "include" then classify_include (skip_blanks arg)
        else Directive name (skip_blanks arg)
      else Text (String c rest)
  end.

(** The classified lines of a file, one per source line. *)
Definition parse (ls : list string) : list line_class :=
  map classify (fst (strip_lines InCode ls)).

End Lexer.

(** ** The umbrella header, parsed *)

Module Umbrella.
Import Lexer.

(** The name under which the header is known to the preprocessor. *)
Definition self : string := "libsass4.h".

Definition lines : list line_class := parse Source.libsass4_h.

(** The include directives of a file, in order of appearance. *)
Definition includes_of (cs : list line_class) : list (include_form * string) :=
  omap (fun c => match c with Include f p => Some (f, p) | _ => None end) cs.

(** Whatever a file has besides blank lines and include directives: its own
    directives ([#define], [#ifndef], [#pragma], ...) and its own text
    (declarations, definitions). *)
Definition is_own (c : line_class) : bool :=
  match c with
  | Blank | Include _ _ => false
  | Directive _ _ | Text _ => true
  end.

Definition own_lines_of (cs : list line_class) : list line_class :=
  List.filter is_own cs.

Definition directives : list (include_form * string) := includes_of lines.
Definition paths : list string := map snd directives.

(** The files the header comment names as existing in libsass3 (lines 8 to
    11 of the source). *)
Definition libsass3_files : list string :=
  map skip_blanks (take 4 (drop 7 Source.libsass4_h)).

(** *** Path discipline *)

Fixpoint split_on (sep : ascii) (s : string) : list string :=
  match s with
  | EmptyString => [EmptyString]
  | String c rest =>
      if Ascii.eqb c sep then EmptyString :: split_on sep rest
      else match split_on sep rest with
           | hd :: tl => String c hd :: tl
           | [] => [String c EmptyString]
           end
  end.

(** [strip_suffix suf s] is [Some t] when [s = t ++ suf]. *)
Fixpoint strip_suffix (suf s : string) : option string :=
  if String.eqb s suf then Some EmptyString
  else match s with
       | EmptyString => None
       | String c rest =>
           match strip_suffix suf rest with
           | Some t => Some (String c t)
           | None => None
           end
       end.

(** A header referenced as [<root>/include/sass/<name>.h]. *)
Record vendored := { vendor_root : string; header_name : string }.

Definition analyse (p : string) : option vendored :=
  match split_on "/" p with
  | [root; d1; d2; file] =>
      if (String.eqb d1 "include" && String.eqb d2 "sass"
          && negb (String.eqb root ""))%bool
      then match strip_suffix ".h" file with
           | Some name =>
               if String.eqb name "" then None
               else Some {| vendor_root := root; header_name := name |}
           | None => None
           end
      else None
  | _ => None
  end.

(** The path a vendored header is referenced by. *)
Definition render (v : vendored) : string :=
  vendor_root v +:+ "/include/sass/" +:+ header_name v +:+ ".h".

(** A bare engine path, the form a system installation answers to. *)
Definition is_bare (p : string) : bool := String.prefix "sass/" p.

(** The first component of a path: what a search directory must contain
    for the path to resolve in it. *)
Definition top_component (p : string) : string :=
  match split_on "/" p with
  | c :: _ => c
  | [] => EmptyString
  end.

(** Where the vendored copy of an engine file [sass/...] or [sass.h] is
    referenced from: the include directory of the vendored engine. *)
Definition vendor_include_dir : string := "libsass4/include/".
Definition v4_copy (n : string) : string := vendor_include_dir +:+ n.

(** *** Header-name resolution

    The places a header name is looked up in, in order: a quoted name is
    first looked up next to the including file, an angle-bracket name only
    in the search directories. *)
Definition candidates (f : include_form) (includer_dir : string)
    (search : list string) (p : string) : list string :=
  match f with
  | Quoted => (includer_dir +:+ "/" +:+ p) :: map (fun d => d +:+ "/" +:+ p) search
  | Angle => map (fun d => d +:+ "/" +:+ p) search
  end.

(** The file a header name resolves to: the first candidate that exists. *)
Definition resolve (exists_file : string -> bool) (f : include_form)
    (includer_dir : string) (search : list string) (p : string) : option string :=
  List.find exists_file (candidates f includer_dir search p).

(** *** Guards of the file's own *)

Inductive guard_kind := PragmaOnce | MacroGuard (m : string).

Definition is_pragma_once (c : line_class) : bool :=
  match c with
  | Directive name arg =>
      (String.eqb name "pragma" && String.eqb (fst (take_ident arg)) "once")%bool
  | _ => false
  end.

(** An include guard: [#pragma once] somewhere, or [#ifndef M] followed by
    [#define M] as the first two non-blank lines. *)
Definition own_guard (cs : list line_class) : option guard_kind :=
  if existsb is_pragma_once cs then Some PragmaOnce
  else match List.filter (fun c => match c with Blank => false | _ => true end) cs with
       | Directive n1 a1 :: Directive n2 a2 :: _ =>
           if (String.eqb n1 "ifndef" && String.eqb n2 "define"
               && String.eqb (fst (take_ident a1)) (fst (take_ident a2)))%bool
           then Some (MacroGuard (fst (take_ident a1)))
           else None
       | _ => None
       end.

(** For comparison: the text of the header with an include guard put
    around it. *)
Definition guarded_variant : list string :=
  ["#ifndef LIBSASS4_H"; "#define LIBSASS4_H"] ++ Source.libsass4_h ++ ["#endif"].

(** The header names of lines 16 to 27, as they stand in the file. *)
Definition umbrella_paths : list string :=
  [ "libsass4/include/sass/base.h"; "libsass4/include/sass/enums.h";
    "libsass4/include/sass/fwdecl.h"; "libsass4/include/sass/version.h";
    "libsass4/include/sass/error.h"; "libsass4/include/sass/traces.h";
    "libsass4/include/sass/values.h"; "libsass4/include/sass/import.h";
    "libsass4/include/sass/importer.h"; "libsass4/include/sass/function.h";
    "libsass4/include/sass/compiler.h"; "libsass4/include/sass/variable.h" ].

End Umbrella.

(** ** The engine's headers, by role *)

Module Engine.
Import Umbrella.

(** Modelled from the spec: the engine's public surface, whose headers
    are not part of the source tree, as the twelve groups of the include
    ordering, each named by the role its header plays. *)
Inductive group :=
  | BasePrimitives
  | EnumConstants
  | ForwardDecls
  | VersionMacros
  | ErrorObjects
  | TraceObjects
  | ValueModel
  | ImportDescriptors
  | ImporterCallbacks
  | CustomFunctions
  | CompilerLifecycle
  | VariableAccess.

#[global] Instance group_eq_dec : EqDecision group.
Proof. solve_decision. Defined.

(** The required order as the include ordering states it: groups 1 to
    12. *)
Definition spec_order : list group :=
  [ BasePrimitives; EnumConstants; ForwardDecls; VersionMacros; ErrorObjects;
    TraceObjects; ValueModel; ImportDescriptors; ImporterCallbacks;
    CustomFunctions; CompilerLifecycle; VariableAccess ].

(** The number a group carries in that list. *)
Definition group_number (g : group) : nat :=
  match g with
  | BasePrimitives => 1
  | EnumConstants => 2
  | ForwardDecls => 3
  | VersionMacros => 4
  | ErrorObjects => 5
  | TraceObjects => 6
  | ValueModel => 7
  | ImportDescriptors => 8
  | ImporterCallbacks => 9
  | CustomFunctions => 10
  | CompilerLifecycle => 11
  | VariableAccess => 12
  end.

(** The role of an engine header, told by the name of its file: the
    ordering is stated by role, the header lists files, and the names pair
    up as follows. *)
Definition role_of_name (n : string) : option group :=
  if String.eqb n "base" then Some BasePrimitives
  else if String.eqb n "enums" then Some EnumConstants
  else if String.eqb n "fwdecl" then Some ForwardDecls
  else if String.eqb n "version" then Some VersionMacros
  else if String.eqb n "error" then Some ErrorObjects
  else if String.eqb n "traces" then Some TraceObjects
  else if String.eqb n "values" then Some ValueModel
  else if String.eqb n "import" then Some ImportDescriptors
  else if String.eqb n "importer" then Some ImporterCallbacks
  else if String.eqb n "function" then Some CustomFunctions
  else if String.eqb n "compiler" then Some CompilerLifecycle
  else if String.eqb n "variable" then Some VariableAccess
  else None.

Definition role_of_path (p : string) : option group :=
  match analyse p with
  | Some v => role_of_name (header_name v)
  | None => None
  end.

(** The roles of the headers the umbrella lists, in the order it lists
    them (a path that is no engine header would be dropped). *)
Definition listed_order : list group := omap role_of_path paths.

(** Modelled from the spec: the dependency relation between the engine's
    headers, whose texts are not part of the source tree.  The rationale of
    the include ordering gives it: lower-numbered groups are depended on by
    higher-numbered groups; the compiler lifecycle references error, trace,
    import, importer, function and value types; importer references import
    and value; value references base and enumerations; all reference base
    and the forward declarations.  "All" is read inside the first sentence:
    every group numbered higher than the one referenced.  [depends h d]
    says that header [h] needs names that header [d] declares. *)
Definition depends (h d : group) : bool :=
  match h, d with
  | CompilerLifecycle,
    (ErrorObjects | TraceObjects | ImportDescriptors | ImporterCallbacks
     | CustomFunctions | ValueModel) => true
  | ImporterCallbacks, (ImportDescriptors | ValueModel) => true
  | ValueModel, (BasePrimitives | EnumConstants) => true
  | _, (BasePrimitives | ForwardDecls) => Nat.ltb (group_number d) (group_number h)
  | _, _ => false
  end.

End Engine.

(** ** Inclusion under include guards *)

Module Preprocessor.
Import Lexer Umbrella.

(** What a translation unit has accumulated: the macros that [exec] and
    the include guards define, the files marked [#pragma once], the engine
    header bodies expanded so far (in order, one entry per expansion), and
    the text lines that the files processed by [exec] contributed
    themselves.  The engine's headers are external: what a body declares,
    which macros it defines beyond its guard and which headers it includes
    in turn are not part of the state. *)
Record pp_state := mk_state {
  macros : gset string;
  once_files : gset string;
  bodies : list string;
  own_decls : list string
}.

Definition initial : pp_state := mk_state ∅ ∅ [] [].

Definition live (conds : list bool) : bool := forallb (fun b => b) conds.

Section Engine_headers.

(** The include-guard macro of each engine header, if it has one.  The
    engine's headers are external to the shim. *)
Variable guard_of : string -> option string.

(** Inclusion of an engine header.  A guarded header ([#ifndef G],
    [#define G], body, [#endif]) expands its body only while [G] is
    undefined; an unguarded one expands it every time.  A body is recorded
    as expanded and otherwise opaque; guarding by [#pragma once] is not
    represented. *)
Definition include_header (st : pp_state) (p : string) : pp_state :=
  match guard_of p with
  | Some g =>
      if bool_decide (g ∈ macros st) then st
      else mk_state ({[g]} ∪ macros st) (once_files st)
                    (bodies st ++ [p]) (own_decls st)
  | None =>
      mk_state (macros st) (once_files st) (bodies st ++ [p]) (own_decls st)
  end.

Definition define (m : string) (st : pp_state) : pp_state :=
  mk_state ({[m]} ∪ macros st) (once_files st) (bodies st) (own_decls st).

Definition undef (m : string) (st : pp_state) : pp_state :=
  mk_state (macros st ∖ {[m]}) (once_files st) (bodies st) (own_decls st).

Definition mark_once (f : string) (st : pp_state) : pp_state :=
  mk_state (macros st) ({[f]} ∪ once_files st) (bodies st) (own_decls st).

Definition declare (s : string) (st : pp_state) : pp_state :=
  mk_state (macros st) (once_files st) (bodies st) (own_decls st ++ [s]).

(** Processing of the classified lines of the file [self].  [conds] is the
    stack of open conditionals, innermost first; a line acts only when all
    of them hold.  The controlling expression of [#if] is not evaluated
    (taken as true); directives without effect on the state are skipped. *)
Fixpoint exec (self : string) (conds : list bool) (cs : list line_class)
    (st : pp_state) : pp_state :=
  match cs with
  | [] => st
  | c :: cs' =>
      match c with
      | Blank => exec self conds cs' st
      | Include _ p =>
          exec self conds cs' (if live conds then include_header st p else st)
      | Text s =>
          exec self conds cs' (if live conds then declare s st else st)
      | Directive name arg =>
          let m := fst (take_ident arg) in
          if String.eqb name "ifndef" then
            exec self (negb (bool_decide (m ∈ macros st)) :: conds) cs' st
          else if String.eqb name "ifdef" then
            exec self (bool_decide (m ∈ macros st) :: conds) cs' st
          else if String.eqb name "if" then
            exec self (true :: conds) cs' st
          else if String.eqb name "else" then
            match conds with
            | b :: conds' => exec self (negb b :: conds') cs' st
            | [] => exec self conds cs' st
            end
          else if String.eqb name "endif" then
            exec self (tail conds) cs' st
          else if String.eqb name "define" then
            exec self conds cs' (if live conds then define m st else st)
          else if String.eqb name "undef" then
            exec self conds cs' (if live conds then undef m st else st)
          else if is_pragma_once c then
            if live conds then
              if bool_decide (self ∈ once_files st) then st
              else exec self conds cs' (mark_once self st)
            else exec self conds cs' st
          else exec self conds cs' st
      end
  end.

(** One inclusion of the umbrella header. *)
Definition include_umbrella (st : pp_state) : pp_state :=
  exec self [] lines st.

(** The engine headers at the given paths, included one after the other. *)
Definition run (ps : list string) (st : pp_state) : pp_state :=
  foldl include_header st ps.

(** Every expanded body of a guarded header has its guard defined, and no
    body is there twice: the invariant of a translation unit whose headers
    are all guarded. *)
Definition guarded_inv (st : pp_state) : Prop :=
  NoDup (bodies st)
  /\ forall p g, p ∈ bodies st -> guard_of p = Some g -> g ∈ macros st.

(** No two of the given headers share a guard macro. *)
Definition distinct_guards (ps : list string) : Prop :=
  forall p q g, p ∈ ps -> q ∈ ps ->
    guard_of p = Some g -> guard_of q = Some g -> p = q.

(** Whether the header at [p] expands its body when included into [st]:
    an unguarded header always does, a guarded one while its guard is
    undefined. *)
Definition will_expand (st : pp_state) (p : string) : bool :=
  match guard_of p with
  | Some g => negb (bool_decide (g ∈ macros st))
  | None => true
  end.

(** Whether the header at [p] is guarded by a macro defined in [st]. *)
Definition guard_defined (st : pp_state) (p : string) : Prop :=
  exists g, guard_of p = Some g /\ g ∈ macros st.

End Engine_headers.

(** A guard macro named after the path of the header: one way the engine's
    headers can be guarded, with a guard of its own for each. *)
Definition path_guard (p : string) : option string := Some ("GUARD:" +:+ p).

(** A guard macro named after the file name alone, whatever directory the
    header is referenced through: the copies of one file in two
    installations then share their guard. *)
Definition name_guard (p : string) : option string :=
  Some ("GUARD:" +:+ List.last (split_on "/" p) "").

End Preprocessor.

(** ** Declaration before use *)

Module Build.
Import Engine.

Inductive build_result :=
  | Built
  | Undeclared (header missing : group).

#[global] Instance build_result_eq_dec : EqDecision build_result.
Proof. solve_decision. Defined.

(** The first header that [h] depends on and that is not declared yet. *)
Definition first_missing (declared : list group) (h : group) : option group :=
  List.find (fun d => (depends h d && negb (bool_decide (d ∈ declared)))%bool)
            spec_order.

(** Modelled from the spec: what the host compiler does with the engine's
    headers, whose texts are not part of the source tree.  The headers are
    processed in the order given; when one is processed, every name it
    needs must have been declared, and a header that needs a name nobody
    declared yet stops the build with a diagnostic. *)
Fixpoint build_from (declared : list group) (order : list group) : build_result :=
  match order with
  | [] => Built
  | h :: rest =>
      match first_missing declared h with
      | Some d => Undeclared h d
      | None => build_from (h :: declared) rest
      end
  end.

Definition build (order : list group) : build_result := build_from [] order.


(** Every dependency of every header in the list is met strictly earlier
    in the list. *)
Definition topological (l : list group) : Prop :=
  forall j h d, l !! j = Some h -> depends h d = true ->
    exists i, i < j /\ l !! i = Some d.

(** An order that differs from the listed one in the places of the version
    macros and the error objects. *)
Definition version_after_error : list group :=
  [ BasePrimitives; EnumConstants; ForwardDecls; ErrorObjects; VersionMacros;
    TraceObjects; ValueModel; ImportDescriptors; ImporterCallbacks;
    CustomFunctions; CompilerLifecycle; VariableAccess ].

End Build.


(** * Properties *)

Import Lexer Umbrella Engine Preprocessor Build.

(** ** What the header consists of *)

(** Lines 1 to 15 are the comment, lines 16 to 27 the include directives. *)
Lemma lines_eq :
  lines = replicate 15 Blank ++ map (Include Angle) umbrella_paths.
Proof. vm_compute. reflexivity. Qed.

Lemma directives_eq : directives = map (pair Angle) umbrella_paths.
Proof. vm_compute. reflexivity. Qed.

Lemma paths_eq : paths = umbrella_paths.
Proof. vm_compute. reflexivity. Qed.

Lemma libsass3_files_eq :
  libsass3_files = ["sass.h"; "sass/base.h"; "sass/values.h"; "sass/version.h"].
Proof. vm_compute. reflexivity. Qed.

Lemma listed_order_eq : listed_order = spec_order.
Proof. vm_compute. reflexivity. Qed.

Lemma comment_is_closed : snd (strip_lines InCode Source.libsass4_h) = InCode.
Proof. vm_compute. reflexivity. Qed.

(** C1: the umbrella header has exactly twelve include directives (every
    other line is blank once the comment is removed), and the roles of the
    headers they name, read in the order of the file, are the twelve groups
    of the specification in their order: base primitives, enumerated
    constants, forward declarations, version macros, error objects, trace
    objects, value model, import descriptors, importer callbacks, custom
    functions, compiler lifecycle, variable access. *)
Theorem include_order_matches_groups :
  length directives = 12 /\
  length (List.filter (fun c => match c with Blank => false | _ => true end) lines) = 12 /\
  map role_of_path paths = map Some spec_order /\
  map group_number listed_order = seq 1 12.
Proof. repeat split; vm_compute; reflexivity. Qed.

(** A search directory that holds nothing but libsass3 files is passed over
    when a path that is none of them is looked up. *)
Lemma resolve_skips exists_file f dir sys rest p :
  f = Angle ->
  (forall q, exists_file (sys +:+ "/" +:+ q) = true -> q ∈ libsass3_files) ->
  p ∉ libsass3_files ->
  resolve exists_file f dir (sys :: rest) p = resolve exists_file f dir rest p.
Proof.
  intros -> Hsys Hp. unfold resolve. simpl.
  destruct (exists_file (sys +:+ "/" +:+ p)) eqn:He; [|done].
  destruct Hp. by apply Hsys.
Qed.

(** A bare engine path, in contrast, is answered by the libsass3
    installation whenever its directory comes first. *)
Lemma bare_path_is_shadowed exists_file dir sys rest n :
  exists_file (sys +:+ "/" +:+ n) = true ->
  resolve exists_file Angle dir (sys :: rest) n = Some (sys +:+ "/" +:+ n).
Proof. intros He. unfold resolve. simpl. by rewrite He. Qed.

(** C2: every include directive references its header as
    [<vendor-root>/include/sass/<name>.h] with the vendor root [libsass4];
    none uses a bare [sass/...] path, none names a file of a libsass3
    installation, and no libsass3 file lives under the vendor root; so a
    libsass3 installation at the head of the search path answers none of
    the twelve directives. *)
Theorem path_discipline :
  Forall (fun d : include_form * string =>
            exists name,
              analyse (snd d) = Some {| vendor_root := "libsass4"; header_name := name |}
              /\ snd d = render {| vendor_root := "libsass4"; header_name := name |}
              /\ is_bare (snd d) = false
              /\ (snd d ∉ libsass3_files)
              /\ forall exists_file dir sys rest,
                   (forall q, exists_file (sys +:+ "/" +:+ q) = true -> q ∈ libsass3_files) ->
                   resolve exists_file (fst d) dir (sys :: rest) (snd d)
                   = resolve exists_file (fst d) dir rest (snd d))
         directives
  /\ Forall (fun n => top_component n <> "libsass4") libsass3_files.
Proof.
  rewrite directives_eq. split.
  - unfold umbrella_paths.
    repeat (apply Forall_cons; split;
            [ assert (forall p, bool_decide (p ∉ libsass3_files) = true -> p ∉ libsass3_files) as Hdec
                by (intros p; apply bool_decide_eq_true_1);
              eexists; split; [vm_compute; reflexivity|];
              split; [reflexivity|]; split; [reflexivity|];
              split; [apply Hdec; vm_compute; reflexivity|];
              intros exists_file dir sys rest Hsys;
              apply resolve_skips;
              [reflexivity | exact Hsys | apply Hdec; vm_compute; reflexivity]
            | ]).
    apply Forall_nil_2.
  - rewrite libsass3_files_eq.
    repeat (apply Forall_cons; split; [vm_compute; discriminate|]).
    apply Forall_nil_2.
Qed.

(** C10: all twelve directives use the angle-bracket form and the one
    literal prefix [libsass4/include/sass/]; the twelve paths, and the
    twelve header names, are pairwise distinct, so one pass over the
    directives expands each header once; and where an angle-bracket name is
    looked up does not depend on the directory of the including file. *)
Theorem angle_form_single_prefix :
  Forall (fun d : include_form * string =>
            fst d = Angle
            /\ String.prefix "libsass4/include/sass/" (snd d) = true
            /\ forall dir dir' search,
                 candidates (fst d) dir search (snd d)
                 = candidates (fst d) dir' search (snd d))
         directives
  /\ length directives = 12
  /\ NoDup paths
  /\ NoDup (omap (fun p => header_name <$> analyse p) paths)
  /\ length (omap (fun p => header_name <$> analyse p) paths) = 12
  /\ bodies (include_umbrella (fun _ => None) initial) = paths.
Proof.
  split; [|split; [|split; [|split; [|split]]]].
  - rewrite directives_eq. unfold umbrella_paths.
    repeat (apply Forall_cons; split;
            [ split; [reflexivity|]; split; [reflexivity|]; intros; reflexivity | ]).
    apply Forall_nil_2.
  - vm_compute; reflexivity.
  - apply (bool_decide_unpack _). vm_compute. exact I.
  - apply (bool_decide_unpack _). vm_compute. exact I.
  - vm_compute; reflexivity.
  - vm_compute; reflexivity.
Qed.

(** ** Inclusion of the umbrella header *)

Section Inclusion.

Variable guard_of : string -> option string.

(** With neither conditionals nor text of its own, the header acts as its
    include directives, in order. *)
Lemma exec_includes self ps st :
  exec guard_of self [] (map (Include Angle) ps) st = run guard_of ps st.
Proof.
  revert st. induction ps as [|p ps IH]; intros st; [reflexivity|].
  simpl. apply IH.
Qed.

Lemma exec_blank self conds n cs st :
  exec guard_of self conds (replicate n Blank ++ cs) st
  = exec guard_of self conds cs st.
Proof. induction n as [|n IH]; [reflexivity|]. simpl. exact IH. Qed.

Lemma include_umbrella_run st :
  include_umbrella guard_of st = run guard_of paths st.
Proof.
  unfold include_umbrella. rewrite lines_eq, paths_eq, exec_blank.
  apply exec_includes.
Qed.

Lemma run_app ps qs st :
  run guard_of (ps ++ qs) st = run guard_of qs (run guard_of ps st).
Proof. unfold run. apply foldl_app. Qed.

(** *** What an engine header inclusion can change *)

Lemma include_header_own st p :
  own_decls (include_header guard_of st p) = own_decls st
  /\ once_files (include_header guard_of st p) = once_files st.
Proof.
  unfold include_header. destruct (guard_of p) as [g|]; [|done].
  case_bool_decide; done.
Qed.

Lemma include_header_macros st p :
  macros (include_header guard_of st p)
  ⊆ macros st ∪ list_to_set (omap guard_of [p]).
Proof.
  unfold include_header. simpl. destruct (guard_of p) as [g|]; simpl.
  - case_bool_decide; simpl.
    + apply union_subseteq_l.
    + rewrite (comm_L (∪) (macros st)). apply union_mono_r.
      apply union_subseteq_l.
  - apply union_subseteq_l.
Qed.

Lemma include_header_macros_mono st p : macros st ⊆ macros (include_header guard_of st p).
Proof.
  unfold include_header. destruct (guard_of p) as [g|]; simpl; [|done].
  case_bool_decide; simpl; set_solver.
Qed.

Lemma run_own ps st :
  own_decls (run guard_of ps st) = own_decls st
  /\ once_files (run guard_of ps st) = once_files st.
Proof.
  revert st. induction ps as [|p ps IH]; intros st; [done|].
  simpl. destruct (IH (include_header guard_of st p)) as [-> ->].
  apply include_header_own.
Qed.

Lemma run_macros ps st :
  macros (run guard_of ps st) ⊆ macros st ∪ list_to_set (omap guard_of ps).
Proof.
  revert st. induction ps as [|p ps IH]; intros st; [set_solver|].
  change (run guard_of (p :: ps) st) with (run guard_of ps (include_header guard_of st p)).
  etrans; [apply IH|].
  apply union_least.
  - etrans; [apply include_header_macros|].
    apply union_mono_l. simpl. destruct (guard_of p); simpl.
    + apply union_mono_l, empty_subseteq.
    + apply empty_subseteq.
  - etrans; [|apply union_subseteq_r].
    simpl. destruct (guard_of p); simpl; [apply union_subseteq_r | done].
Qed.

Lemma run_macros_mono ps st : macros st ⊆ macros (run guard_of ps st).
Proof.
  revert st. induction ps as [|p ps IH]; intros st; [done|].
  change (run guard_of (p :: ps) st) with (run guard_of ps (include_header guard_of st p)).
  etrans; [apply include_header_macros_mono | apply IH].
Qed.

(** The expanded bodies only ever grow, by at most one entry per
    directive. *)
Lemma include_header_bodies st p :
  bodies (include_header guard_of st p) = bodies st
  \/ bodies (include_header guard_of st p) = bodies st ++ [p].
Proof.
  unfold include_header. destruct (guard_of p) as [g|]; [|by right].
  case_bool_decide; [by left | by right].
Qed.

Lemma run_bodies_length ps st :
  length (bodies st) <= length (bodies (run guard_of ps st)).
Proof.
  revert st. induction ps as [|p ps IH]; intros st; [done|].
  change (run guard_of (p :: ps) st) with (run guard_of ps (include_header guard_of st p)).
  etrans; [|apply IH].
  destruct (include_header_bodies st p) as [-> | ->]; [done|].
  rewrite length_app. simpl. lia.
Qed.

(** *** Guarded headers *)

(** Once a header has been included, its guard is defined. *)
Lemma include_header_defines st p g :
  guard_of p = Some g -> g ∈ macros (include_header guard_of st p).
Proof.
  intros Hg. unfold include_header. rewrite Hg.
  case_bool_decide; simpl; set_solver.
Qed.

Lemma run_defines ps st p g :
  p ∈ ps -> guard_of p = Some g -> g ∈ macros (run guard_of ps st).
Proof.
  revert st. induction ps as [|q ps IH]; intros st Hin Hg; [by apply elem_of_nil in Hin|].
  change (run guard_of (q :: ps) st) with (run guard_of ps (include_header guard_of st q)).
  apply elem_of_cons in Hin as [-> | Hin].
  - apply run_macros_mono. by apply include_header_defines.
  - by apply IH.
Qed.

(** Headers whose guards are all defined already are skipped whole. *)
Lemma run_skips ps st :
  Forall (fun p => exists g, guard_of p = Some g /\ g ∈ macros st) ps ->
  run guard_of ps st = st.
Proof.
  induction 1 as [|p ps (g & Hg & Hin) _ IH]; [done|].
  change (run guard_of (p :: ps) st) with (run guard_of ps (include_header guard_of st p)).
  assert (include_header guard_of st p = st) as ->; [|exact IH].
  unfold include_header. rewrite Hg. by rewrite bool_decide_eq_true_2.
Qed.

(** An unguarded header among the directives makes every pass expand at
    least one more body. *)
Lemma run_unguarded_grows ps st p :
  p ∈ ps -> guard_of p = None ->
  length (bodies st) < length (bodies (run guard_of ps st)).
Proof.
  revert st. induction ps as [|q ps IH]; intros st Hin Hg; [by apply elem_of_nil in Hin|].
  change (run guard_of (q :: ps) st) with (run guard_of ps (include_header guard_of st q)).
  apply elem_of_cons in Hin as [-> | Hin].
  - eapply Nat.lt_le_trans; [|apply run_bodies_length].
    unfold include_header. rewrite Hg. simpl. rewrite length_app. simpl. lia.
  - eapply Nat.le_lt_trans; [|by apply IH].
    destruct (include_header_bodies st q) as [-> | ->]; [done|].
    rewrite length_app. simpl. lia.
Qed.


Lemma include_header_inv st p :
  is_Some (guard_of p) -> guarded_inv guard_of st -> guarded_inv guard_of (include_header guard_of st p).
Proof.
  intros [g Hg] [Hnd Hdef]. unfold include_header. rewrite Hg.
  case_bool_decide as Hin; [by split|]. split; simpl.
  - apply NoDup_app. split; [done|]. split; [|apply NoDup_singleton].
    intros q Hq Hq'. apply list_elem_of_singleton in Hq' as ->.
    apply Hin. by eapply Hdef.
  - intros q g' Hq Hg'. apply elem_of_app in Hq as [Hq | Hq].
    + apply elem_of_union_r. by eapply Hdef.
    + apply list_elem_of_singleton in Hq as ->.
      apply elem_of_union_l, elem_of_singleton. congruence.
Qed.

Lemma run_inv ps st :
  Forall (fun p => is_Some (guard_of p)) ps -> guarded_inv guard_of st ->
  guarded_inv guard_of (run guard_of ps st).
Proof.
  intros H. revert st. induction H as [|p ps Hp _ IH]; intros st Hst; [done|].
  change (run guard_of (p :: ps) st) with (run guard_of ps (include_header guard_of st p)).
  apply IH. by apply include_header_inv.
Qed.

(** *** Distinct guards *)


Lemma run_expands_all ps st :
  NoDup ps -> distinct_guards guard_of ps ->
  (forall p g, p ∈ ps -> guard_of p = Some g -> g ∉ macros st) ->
  bodies (run guard_of ps st) = bodies st ++ ps.
Proof.
  intros Hnd. revert st. induction Hnd as [|p ps Hp Hnd IH]; intros st Hdist Hfresh.
  - simpl. by rewrite app_nil_r.
  - change (run guard_of (p :: ps) st) with (run guard_of ps (include_header guard_of st p)).
    assert (bodies (include_header guard_of st p) = bodies st ++ [p]) as Hb.
    { unfold include_header. destruct (guard_of p) as [g|] eqn:Hg; [|done].
      rewrite bool_decide_eq_false_2; [done|]. eapply Hfresh; [left|done]. }
    rewrite IH.
    + rewrite Hb. by rewrite <- app_assoc.
    + intros q1 q2 g H1 H2. apply Hdist; by right.
    + intros q g Hq Hg Hin.
      pose proof (include_header_macros st p) as Hsub.
      apply Hsub in Hin. apply elem_of_union in Hin as [Hin | Hin].
      * eapply Hfresh; [by right | done | done].
      * simpl in Hin. destruct (guard_of p) as [g'|] eqn:Hg'; simpl in Hin.
        -- apply elem_of_union in Hin as [Hin | Hin]; [|set_solver].
           apply elem_of_singleton in Hin as ->.
           assert (q = p) as -> by (apply (Hdist q p g'); [by right | left | done | done]).
           done.
        -- set_solver.
Qed.

End Inclusion.

(** The preprocessor on a header that does carry a guard: with the text of
    the umbrella header wrapped in [#ifndef]/[#define]/[#endif], a second
    inclusion is skipped even when no engine header is guarded. *)
Example guarded_variant_detected :
  own_guard (parse guarded_variant) = Some (MacroGuard "LIBSASS4_H").
Proof. vm_compute. reflexivity. Qed.

Example guarded_variant_once :
  let once := exec (fun _ => None) self [] (parse guarded_variant) initial in
  bodies once = paths
  /\ bodies (exec (fun _ => None) self [] (parse guarded_variant) once) = paths.
Proof. split; vm_compute; reflexivity. Qed.

(** The umbrella header as it is, with no engine header guarded: the
    second inclusion expands all twelve bodies again. *)
Example unguarded_twice :
  bodies (include_umbrella (fun _ => None)
            (include_umbrella (fun _ => None) initial))
  = paths ++ paths.
Proof. vm_compute. reflexivity. Qed.


(** C7: the umbrella header has no line of its own besides blank lines and
    include directives, so including it is exactly including the twelve
    engine headers: it adds no text line, marks no file, and every macro
    defined afterwards was defined before or is the guard of one of the
    twelve engine headers, defined by that header. *)
Theorem shim_contributes_nothing :
  own_lines_of lines = []
  /\ forall (guard_of : string -> option string) (st : pp_state),
       include_umbrella guard_of st = run guard_of paths st
       /\ own_decls (include_umbrella guard_of st) = own_decls st
       /\ once_files (include_umbrella guard_of st) = once_files st
       /\ macros (include_umbrella guard_of st)
          ⊆ macros st ∪ list_to_set (omap guard_of paths).
Proof.
  split; [vm_compute; reflexivity|].
  intros guard_of st. rewrite include_umbrella_run.
  destruct (run_own guard_of paths st) as [Hown Honce].
  repeat split; [exact Hown | exact Honce | apply run_macros].
Qed.

(** C9: the umbrella header has no include guard of its own (neither
    [#pragma once] nor [#ifndef]/[#define], indeed no directive but
    [#include]), so including it twice processes its twelve directives
    twice over; and the second inclusion leaves the translation unit as the
    first left it if and only if each of the twelve engine headers has a
    guard. *)
Theorem no_own_guard :
  own_guard lines = None
  /\ own_lines_of lines = []
  /\ forall (guard_of : string -> option string) (st : pp_state),
       include_umbrella guard_of (include_umbrella guard_of st)
       = run guard_of (paths ++ paths) st
       /\ (include_umbrella guard_of (include_umbrella guard_of st)
           = include_umbrella guard_of st
           <-> Forall (fun p => is_Some (guard_of p)) paths).
Proof.
  split; [vm_compute; reflexivity|]. split; [vm_compute; reflexivity|].
  intros guard_of st. rewrite !include_umbrella_run. split.
  - by rewrite run_app.
  - split.
    + intros Heq.
      destruct (decide (Forall (fun p => is_Some (guard_of p)) paths)) as [|Hno]; [done|].
      apply not_Forall_Exists in Hno; [|apply _].
      apply Exists_exists in Hno as (p & Hp & Hnone). simpl in Hnone.
      apply eq_None_not_Some in Hnone.
      pose proof (run_unguarded_grows guard_of paths (run guard_of paths st) p Hp Hnone) as Hlt.
      rewrite Heq in Hlt. lia.
    + intros Hall. apply run_skips.
      apply Forall_forall. intros p Hp.
      rewrite Forall_forall in Hall. destruct (Hall p Hp) as [g Hg].
      exists g. split; [done|]. by eapply run_defines.
Qed.

(** C5: when the engine's headers are guarded, a second inclusion of the
    umbrella header changes nothing (no body is expanded, no macro defined,
    no declaration added) and a translation unit that includes it twice has
    expanded no body twice; the umbrella header has no guard of its own, so
    this rests on the guards of the engine's headers alone. *)
Theorem double_inclusion_idempotent (guard_of : string -> option string) (st : pp_state) :
  Forall (fun p => is_Some (guard_of p)) paths ->
  own_guard lines = None
  /\ include_umbrella guard_of (include_umbrella guard_of st)
     = include_umbrella guard_of st
  /\ NoDup (bodies (include_umbrella guard_of (include_umbrella guard_of initial))).
Proof.
  intros Hall. split; [vm_compute; reflexivity|]. split.
  - rewrite !include_umbrella_run. apply run_skips.
    apply Forall_forall. intros p Hp.
    rewrite Forall_forall in Hall. destruct (Hall p Hp) as [g Hg].
    exists g. split; [done|]. by eapply run_defines.
  - rewrite !include_umbrella_run.
    apply (run_inv guard_of paths _ Hall), (run_inv guard_of paths _ Hall).
    split; [apply NoDup_nil_2|]. intros p g Hp. by apply elem_of_nil in Hp.
Qed.

Lemma double_inclusion_idempotent_witness :
  Forall (fun p => is_Some (path_guard p)) paths
  /\ include_umbrella path_guard (include_umbrella path_guard initial)
     = include_umbrella path_guard initial.
Proof.
  assert (Forall (fun p => is_Some (path_guard p)) paths) as H.
  { apply Forall_forall. intros p _. by eexists. }
  split; [exact H|].
  exact (proj1 (proj2 (double_inclusion_idempotent path_guard initial H))).
Defined.

(** C4: one inclusion of the umbrella header into an empty translation
    unit expands the bodies of exactly the twelve listed headers, and each
    of the twelve groups has exactly one header among them; the headers'
    guards, where they have any, are taken to be distinct macros. *)
Theorem one_inclusion_covers_groups (guard_of : string -> option string) :
  distinct_guards guard_of paths ->
  bodies (include_umbrella guard_of initial) = paths
  /\ (forall g : group,
        exists p, filter (fun q => role_of_path q = Some g)
                         (bodies (include_umbrella guard_of initial)) = [p])
  /\ Forall (fun p => is_Some (role_of_path p)) paths
  /\ length paths = length spec_order.
Proof.
  intros Hdist.
  assert (bodies (include_umbrella guard_of initial) = paths) as Hb.
  { rewrite include_umbrella_run, run_expands_all; [done | | done |].
    - apply (bool_decide_unpack _). vm_compute. exact I.
    - intros p g _ _ Hin. by apply not_elem_of_empty in Hin. }
  split; [exact Hb|]. rewrite Hb, paths_eq. split; [|split].
  - intros g. destruct g; eexists; vm_compute; reflexivity.
  - unfold umbrella_paths.
    repeat (apply Forall_cons; split; [by eexists|]). apply Forall_nil_2.
  - reflexivity.
Qed.

Lemma one_inclusion_covers_groups_witness :
  distinct_guards path_guard paths
  /\ bodies (include_umbrella path_guard initial) = paths.
Proof.
  assert (distinct_guards path_guard paths) as H.
  { intros p q g _ _ Hp Hq. unfold path_guard in *.
    assert (Some ("GUARD:" +:+ p) = Some ("GUARD:" +:+ q)) as Heq by congruence.
    by simplify_eq. }
  split; [exact H|].
  exact (proj1 (one_inclusion_covers_groups path_guard H)).
Defined.

(** ** Declaration before use *)

(** Lower-numbered groups are depended on by higher-numbered groups. *)
Lemma depends_lower h d :
  depends h d = true -> group_number d < group_number h.
Proof. destruct h, d; simpl; intros H; first [discriminate H | lia]. Qed.

Lemma spec_order_complete (g : group) : In g spec_order.
Proof. destruct g; unfold spec_order; simpl; tauto. Qed.

Lemma first_missing_Some declared h d :
  first_missing declared h = Some d -> depends h d = true /\ d ∉ declared.
Proof.
  unfold first_missing. intros H. apply find_some in H as [_ H].
  apply andb_true_iff in H as [Hd Hn]. split; [done|].
  apply negb_true_iff in Hn. by apply bool_decide_eq_false in Hn.
Qed.

Lemma first_missing_None declared h :
  first_missing declared h = None <->
  (forall d, depends h d = true -> d ∈ declared).
Proof.
  unfold first_missing. split.
  - intros H d Hd.
    pose proof (find_none _ _ H d (spec_order_complete d)) as Hf. simpl in Hf.
    rewrite Hd in Hf. simpl in Hf. apply negb_false_iff in Hf.
    by apply bool_decide_eq_true in Hf.
  - intros H. destruct (List.find _ _) as [d|] eqn:Hf; [|done].
    apply find_some in Hf as [_ Hf].
    apply andb_true_iff in Hf as [Hd Hn]. apply negb_true_iff in Hn.
    apply bool_decide_eq_false in Hn. destruct Hn. by apply H.
Qed.


Lemma build_from_Built declared l :
  build_from declared l = Built <->
  (forall j h d, l !! j = Some h -> depends h d = true ->
     d ∈ declared \/ exists i, i < j /\ l !! i = Some d).
Proof.
  revert declared. induction l as [|h l IH]; intros declared.
  - split; [|done]. intros _ j h d Hj. by rewrite lookup_nil in Hj.
  - simpl. destruct (first_missing declared h) as [d0|] eqn:Hm.
    + split; [done|]. intros H.
      apply first_missing_Some in Hm as [Hd Hn].
      destruct (H 0 h d0 eq_refl Hd) as [Hin | (i & Hi & _)]; [done | lia].
    + rewrite first_missing_None in Hm. rewrite IH. split.
      * intros H [|j] h' d Hj Hd; simpl in Hj.
        -- injection Hj as <-. left. by apply Hm.
        -- destruct (H j h' d Hj Hd) as [Hin | (i & Hi & Hl)].
           ++ apply elem_of_cons in Hin as [-> | Hin]; [|by left].
              right. exists 0. split; [lia | done].
           ++ right. exists (S i). split; [lia | done].
      * intros H j h' d Hj Hd.
        destruct (H (S j) h' d Hj Hd) as [Hin | ([|i] & Hi & Hl)].
        -- left. by right.
        -- simpl in Hl. injection Hl as ->. left. by left.
        -- right. exists i. split; [lia | done].
Qed.

(** The build succeeds exactly on the topological orders. *)
Lemma build_topological l : build l = Built <-> topological l.
Proof.
  unfold build, topological. rewrite build_from_Built. split.
  - intros H j h d Hj Hd. destruct (H j h d Hj Hd) as [Hin | Hex]; [|done].
    by apply elem_of_nil in Hin.
  - intros H j h d Hj Hd. right. by eapply H.
Qed.





(** C8, as stated, fails: the listed order is not the only permutation of
    the twelve headers in which every dependency points backwards; listing
    the error objects before the version macros is another. *)
Lemma listed_order_not_unique :
  ~ (forall l, l ≡ₚ listed_order -> topological l -> l = listed_order).
Proof.
  intros H.
  assert (version_after_error = listed_order) as Heq; [|by vm_compute in Heq].
  apply H.
  - rewrite listed_order_eq. unfold version_after_error, spec_order.
    do 3 apply Permutation_skip. apply Permutation_swap.
  - apply build_topological. vm_compute. reflexivity.
Qed.

(** C8, amended: the listed order is a topological ordering of the twelve
    headers for the dependency relation: whatever a listed header depends
    on is listed strictly before it. *)
Theorem listed_order_topological j h d :
  listed_order !! j = Some h -> depends h d = true ->
  exists i, i < j /\ listed_order !! i = Some d.
Proof.
  revert j h d. apply build_topological. vm_compute. reflexivity.
Qed.

Lemma listed_order_topological_witness :
  exists i, i < 10 /\ listed_order !! i = Some ValueModel.
Proof.
  refine (listed_order_topological 10 CompilerLifecycle ValueModel _ _).
  - vm_compute; reflexivity.
  - vm_compute; reflexivity.
Defined.

(** * The umbrella header in an arbitrary translation unit *)

Section Inclusion_anywhere.

Variable guard_of : string -> option string.

Lemma run_bodies_sublist ps st :
  exists l, bodies (run guard_of ps st) = bodies st ++ l /\ l `sublist_of` ps.
Proof.
  revert st. induction ps as [|p ps IH]; intros st.
  - exists []. split; [by rewrite app_nil_r | done].
  - change (run guard_of (p :: ps) st) with (run guard_of ps (include_header guard_of st p)).
    destruct (IH (include_header guard_of st p)) as (l & Hl & Hsub).
    destruct (include_header_bodies guard_of st p) as [Hb | Hb]; rewrite Hb in Hl.
    + exists l. split; [done | by apply sublist_cons].
    + exists (p :: l). split; [by rewrite Hl, <- app_assoc | by apply sublist_skip].
Qed.

(** Where every guard is defined already, only unguarded headers expand. *)
Lemma run_defined ps st :
  Forall (fun p => forall g, guard_of p = Some g -> g ∈ macros st) ps ->
  run guard_of ps st
  = mk_state (macros st) (once_files st)
             (bodies st ++ filter (fun p => guard_of p = None) ps) (own_decls st).
Proof.
  intros H. revert st H. induction ps as [|p ps IH]; intros st H.
  - simpl. rewrite app_nil_r. by destruct st.
  - apply Forall_cons in H as [Hp H].
    change (run guard_of (p :: ps) st) with (run guard_of ps (include_header guard_of st p)).
    unfold include_header. destruct (guard_of p) as [g|] eqn:Hg.
    + rewrite bool_decide_eq_true_2 by by apply Hp.
      rewrite IH by done. rewrite filter_cons_False; [done | congruence].
    + rewrite IH by done. simpl. rewrite filter_cons_True by done.
      by rewrite <- app_assoc.
Qed.

Lemma will_expand_after st p q :
  (forall g, guard_of p = Some g -> guard_of q = Some g -> False) ->
  will_expand guard_of (include_header guard_of st p) q = will_expand guard_of st q.
Proof.
  intros Hne. unfold will_expand, include_header.
  destruct (guard_of q) as [gq|] eqn:Hq; [|done].
  destruct (guard_of p) as [gp|] eqn:Hp; [|done].
  destruct (bool_decide (gp ∈ macros st)); [reflexivity|]. simpl. f_equal.
  apply bool_decide_ext. rewrite elem_of_union, elem_of_singleton.
  split; [|by right]. intros [Heq | H]; [|done].
  subst gq. destruct (Hne gp); reflexivity.
Qed.

Lemma include_header_will_expand st p :
  bodies (include_header guard_of st p)
  = bodies st ++ (if will_expand guard_of st p then [p] else []).
Proof.
  unfold include_header, will_expand. destruct (guard_of p) as [g|]; [|done].
  case_bool_decide; simpl; [by rewrite app_nil_r | done].
Qed.

Lemma run_will_expand ps st :
  NoDup ps -> distinct_guards guard_of ps ->
  bodies (run guard_of ps st) = bodies st ++ List.filter (will_expand guard_of st) ps.
Proof.
  intros Hnd. revert st. induction Hnd as [|p ps Hp Hnd IH]; intros st Hdist.
  - simpl. by rewrite app_nil_r.
  - change (run guard_of (p :: ps) st) with (run guard_of ps (include_header guard_of st p)).
    rewrite IH; [|intros q1 q2 g H1 H2; apply Hdist; by right].
    rewrite include_header_will_expand, <- app_assoc. f_equal.
    rewrite (filter_ext_in (will_expand guard_of (include_header guard_of st p))
                           (will_expand guard_of st)).
    + simpl. by destruct (will_expand guard_of st p).
    + intros q Hq. apply will_expand_after. intros g Hg Hg'.
      apply Hp. apply list_elem_of_In in Hq.
      by rewrite (Hdist p q g) by (first [left | by right | done]).
Qed.

Lemma run_fixed ps st :
  run guard_of ps st = st <-> Forall (guard_defined guard_of st) ps.
Proof.
  split; [|apply run_skips].
  revert st. induction ps as [|p ps IH]; intros st Heq; [done|].
  change (run guard_of (p :: ps) st) with (run guard_of ps (include_header guard_of st p)) in Heq.
  assert (guard_defined guard_of st p) as Hp.
  { pose proof (run_bodies_length guard_of ps (include_header guard_of st p)) as Hle.
    rewrite Heq in Hle. revert Hle. unfold include_header, guard_defined.
    destruct (guard_of p) as [g|].
    - case_bool_decide; [by eauto|]. simpl. rewrite length_app. simpl. lia.
    - simpl. rewrite length_app. simpl. lia. }
  apply Forall_cons. split; [done|]. apply IH.
  destruct Hp as (g & Hg & Hin). revert Heq. unfold include_header.
  by rewrite Hg, bool_decide_eq_true_2.
Qed.

End Inclusion_anywhere.

(** X2: whatever the translation unit holds and however the engine's
    headers are guarded, including the umbrella header keeps the bodies
    expanded so far and appends bodies of listed headers only, each at most
    once and in the order of the list. *)
Theorem umbrella_appends_in_order :
  forall (guard_of : string -> option string) (st : pp_state),
    exists l, bodies (include_umbrella guard_of st) = bodies st ++ l
              /\ l `sublist_of` paths.
Proof.
  intros guard_of st. rewrite include_umbrella_run. apply run_bodies_sublist.
Qed.

(** X3: when no two of the twelve headers share a guard, the umbrella
    header expands exactly those of them that would expand if included on
    their own at that point: a header the translation unit has included
    before, its guard being defined, is passed over, and the others follow
    in the order of the list. *)
Theorem umbrella_after_direct_includes
    (guard_of : string -> option string) (st : pp_state) :
  distinct_guards guard_of paths ->
  bodies (include_umbrella guard_of st)
  = bodies st ++ List.filter (will_expand guard_of st) paths.
Proof.
  intros Hdist. rewrite include_umbrella_run. apply run_will_expand; [|done].
  apply (bool_decide_unpack _). vm_compute. exact I.
Qed.

Lemma umbrella_after_direct_includes_witness :
  distinct_guards path_guard paths
  /\ bodies (include_umbrella path_guard
               (include_header path_guard initial "libsass4/include/sass/values.h"))
     = "libsass4/include/sass/values.h"
       :: List.filter (fun p => negb (String.eqb p "libsass4/include/sass/values.h")) paths.
Proof.
  assert (distinct_guards path_guard paths) as H.
  { intros p q g _ _ Hp Hq. unfold path_guard in *.
    assert (Some ("GUARD:" +:+ p) = Some ("GUARD:" +:+ q)) as Heq by congruence.
    by simplify_eq. }
  split; [exact H|].
  rewrite (umbrella_after_direct_includes path_guard _ H).
  vm_compute. reflexivity.
Defined.

(** X4: once the umbrella header has been included, including any header
    that has the guard of one of the twelve (such as the copy of the same
    file in another installation) changes nothing. *)
Theorem shared_guard_is_skipped
    (guard_of : string -> option string) (st : pp_state) (p q g : string) :
  p ∈ paths -> guard_of p = Some g -> guard_of q = Some g ->
  include_header guard_of (include_umbrella guard_of st) q
  = include_umbrella guard_of st.
Proof.
  intros Hp Hg Hq. rewrite include_umbrella_run.
  unfold include_header at 1. rewrite Hq.
  rewrite bool_decide_eq_true_2; [done|]. by eapply run_defines.
Qed.

Lemma shared_guard_is_skipped_witness :
  include_header name_guard (include_umbrella name_guard initial) "sass/base.h"
  = include_umbrella name_guard initial.
Proof.
  refine (shared_guard_is_skipped name_guard initial
            "libsass4/include/sass/base.h" "sass/base.h" "GUARD:base.h" _ _ _).
  - apply (bool_decide_unpack _). vm_compute. exact I.
  - vm_compute; reflexivity.
  - vm_compute; reflexivity.
Defined.

(** X5: a second inclusion of the umbrella header expands exactly the
    unguarded ones among the twelve headers again, in the order of the
    list, and changes nothing else. *)
Theorem second_inclusion_expands_unguarded :
  forall (guard_of : string -> option string) (st : pp_state),
    include_umbrella guard_of (include_umbrella guard_of st)
    = mk_state (macros (include_umbrella guard_of st))
               (once_files (include_umbrella guard_of st))
               (bodies (include_umbrella guard_of st)
                ++ filter (fun p => guard_of p = None) paths)
               (own_decls (include_umbrella guard_of st)).
Proof.
  intros guard_of st. rewrite !include_umbrella_run.
  apply run_defined. apply Forall_forall. intros p Hp g Hg.
  by eapply run_defines.
Qed.

(** X6: including the umbrella header leaves a translation unit as it was
    if and only if each of the twelve headers is guarded by a macro that is
    defined already. *)
Theorem unchanged_iff_guards_defined :
  forall (guard_of : string -> option string) (st : pp_state),
    include_umbrella guard_of st = st
    <-> Forall (guard_defined guard_of st) paths.
Proof.
  intros guard_of st. rewrite include_umbrella_run. apply run_fixed.
Qed.

(** X7: of the libsass3 files the header comment names, those under
    [sass/] each have their libsass4 copy among the twelve included paths;
    the only other one is [sass.h], and no copy of it is included. *)
Theorem shared_subheaders_are_listed :
  Forall (fun n => v4_copy n ∈ paths) (List.filter is_bare libsass3_files)
  /\ List.filter (fun n => negb (is_bare n)) libsass3_files = ["sass.h"]
  /\ (v4_copy "sass.h" ∉ paths)
  /\ length (List.filter is_bare libsass3_files) = 3.
Proof.
  split; [|split; [|split]].
  - apply (bool_decide_unpack _). vm_compute. exact I.
  - vm_compute. reflexivity.
  - apply (bool_decide_unpack _). vm_compute. exact I.
  - vm_compute. reflexivity.
Qed.
